(** * stt-app: the transcription front end of [src/App.vue]

    A shallow embedding of the [<script setup>] block of [src/App.vue] and of
    the parts of its template that decide which handler a click can reach.

    - The five [ref]s of the component are the first five fields of [State].
    - An [async] handler is split at its single [await]: the part before it is
      the handler proper ([openFileDialog], [transcribeAudio]), which issues
      the external call; the part after it ([openFileDialog_resume],
      [transcribeAudio_resume]) runs when the call is answered, on the refs as
      they are at that moment.
    - JavaScript strings are modelled as [string]s of UTF-8 bytes.  The only
      characters the code inspects are [/] and [\], which are single bytes
      that never occur inside a multi-byte sequence.
    - A thrown value [e] is represented by the text that the template literal
      [`${e}`] gives it. *)

From Stdlib Require Import String Ascii List Bool Arith Lia.
From Stdlib Require Import NArith Decimal DecimalString.
Import ListNotations.
Local Open Scope string_scope.
Local Open Scope list_scope.

(** ** Values *)

(** [{ name, size } as File]: the object literal stored in [audioFile]. *)
Module File.
Record t := mk { name : string; size : nat }.
End File.

(** The record the [transcribe_audio] command answers with:
    [{ text: string; success: boolean; error?: string }]. *)
Module Result.
Record t := mk { text : string; success : bool; error : option string }.
End Result.

(** What [await open({ multiple: false, ... })] gives back. *)
Inductive OpenOutcome :=
| OpenString (selected : string)        (* a path *)
| OpenNull                              (* the user dismissed the dialog *)
| OpenArray (selected : list string)    (* [string[]], the other member of the declared type *)
| OpenThrew (e : string).               (* the promise was rejected *)

(** What [await invoke("transcribe_audio", ...)] gives back. *)
Inductive InvokeOutcome :=
| InvokeResult (result : Result.t)
| InvokeThrew (e : string).

(** JavaScript truthiness of a string, and of an optional string field. *)
Definition truthy (s : string) : bool := negb (s =? "").

(** [a || b] on an optional string [a] and a string [b]. *)
Definition or_else (a : option string) (b : string) : string :=
  match a with
  | Some s => if truthy s then s else b
  | None => b
  end.

(** ** Messages *)

Definition msg_no_file : string := "Файл не выбран".
Definition msg_unknown : string := "Неизвестная ошибка при расшифровке".
Definition msg_pick_prefix : string := "Ошибка при выборе файла: ".
Definition msg_transcribe_prefix : string := "Ошибка при расшифровке: ".
Definition msg_warning : string := "Предупреждение:".
Definition default_name : string := "audio.mp3".

(** ** [selected.split(/[/\\]/).pop()] *)

Definition is_sep (c : ascii) : bool := ((c =? "/") || (c =? "\"))%char.

(** [String.prototype.split] on the separator class [[/\\]]: the pieces between
    separators, in order; a string without separator is its only piece. *)
Fixpoint split (s : string) : list string :=
  match s with
  | EmptyString => [""]
  | String c rest =>
      if is_sep c then "" :: split rest
      else match split rest with
           | seg :: segs => String c seg :: segs
           | [] => [String c ""]
           end
  end.

(** [Array.prototype.pop]: the last element, [undefined] on an empty array. *)
Fixpoint pop (l : list string) : option string :=
  match l with
  | [] => None
  | [x] => Some x
  | _ :: tl => pop tl
  end.

(** Whether a string holds a separator, and whether it ends with one. *)
Fixpoint has_sep (s : string) : bool :=
  match s with
  | EmptyString => false
  | String c rest => is_sep c || has_sep rest
  end.

Definition ends_with_sep (d : string) : Prop :=
  exists d' c, d = (d' ++ String c "")%string /\ is_sep c = true.

(** ** The component's state

    The five refs, followed by what the handlers leave outside the component:
    the external calls they have issued and that are not answered yet, the
    console and the clipboard. *)
Record State := mkState {
  audioFile : option File.t;       (* ref<File | null>(null) *)
  audioFilePath : string;          (* ref<string>("")        *)
  isProcessing : bool;             (* ref(false)             *)
  transcription : string;          (* ref("")                *)
  error : string;                  (* ref("")                *)
  inflight : list string;          (* transcribe_audio calls awaiting an answer,
                                      by their filePath argument, oldest first *)
  dialogs : nat;                   (* open() calls awaiting an answer *)
  console : list (list string);    (* arguments of each console.warn *)
  clipboard : list string          (* texts given to clipboard.writeText *)
}.

Definition init : State :=
  {| audioFile := None; audioFilePath := ""; isProcessing := false;
     transcription := ""; error := ""; inflight := []; dialogs := 0;
     console := []; clipboard := [] |}.

Section Assignments.
Variable s : State.

Definition set_audioFile (v : option File.t) : State :=
  mkState v (audioFilePath s) (isProcessing s) (transcription s) (error s)
          (inflight s) (dialogs s) (console s) (clipboard s).
Definition set_audioFilePath (v : string) : State :=
  mkState (audioFile s) v (isProcessing s) (transcription s) (error s)
          (inflight s) (dialogs s) (console s) (clipboard s).
Definition set_isProcessing (v : bool) : State :=
  mkState (audioFile s) (audioFilePath s) v (transcription s) (error s)
          (inflight s) (dialogs s) (console s) (clipboard s).
Definition set_transcription (v : string) : State :=
  mkState (audioFile s) (audioFilePath s) (isProcessing s) v (error s)
          (inflight s) (dialogs s) (console s) (clipboard s).
Definition set_error (v : string) : State :=
  mkState (audioFile s) (audioFilePath s) (isProcessing s) (transcription s) v
          (inflight s) (dialogs s) (console s) (clipboard s).
Definition set_inflight (v : list string) : State :=
  mkState (audioFile s) (audioFilePath s) (isProcessing s) (transcription s) (error s)
          v (dialogs s) (console s) (clipboard s).
Definition set_dialogs (v : nat) : State :=
  mkState (audioFile s) (audioFilePath s) (isProcessing s) (transcription s) (error s)
          (inflight s) v (console s) (clipboard s).
Definition set_console (v : list (list string)) : State :=
  mkState (audioFile s) (audioFilePath s) (isProcessing s) (transcription s) (error s)
          (inflight s) (dialogs s) v (clipboard s).
Definition set_clipboard (v : list string) : State :=
  mkState (audioFile s) (audioFilePath s) (isProcessing s) (transcription s) (error s)
          (inflight s) (dialogs s) (console s) v.
End Assignments.

(** [!!audioFile.value]: an object is truthy, [null] is not. *)
Definition has_file (s : State) : bool :=
  match audioFile s with
  | Some _ => true
  | None => false
  end.

(** [computed(() => audioFile.value?.name || "")] *)
Definition audioFileName (s : State) : string :=
  or_else (option_map File.name (audioFile s)) "".

(** ** Handlers *)

(** [openFileDialog], up to [await open(...)]: the dialog is requested. *)
Definition openFileDialog (s : State) : State :=
  set_dialogs s (S (dialogs s)).

(** [openFileDialog], from the answer of [open] on. *)
Definition openFileDialog_resume (o : OpenOutcome) (s : State) : State :=
  match o with
  | OpenString selected =>
      if truthy selected then
        let s := set_audioFilePath s selected in
        let fileName := or_else (pop (split selected)) default_name in
        let s := set_audioFile s (Some (File.mk fileName 0)) in
        let s := set_error s "" in
        set_transcription s ""
      else s
  | OpenNull => s                 (* [selected] is falsy *)
  | OpenArray _ => s              (* [typeof selected] is not ["string"] *)
  | OpenThrew e => set_error s (msg_pick_prefix ++ e)
  end.

Definition removeFile (s : State) : State :=
  let s := set_audioFile s None in
  let s := set_audioFilePath s "" in
  let s := set_transcription s "" in
  set_error s "".

(** [transcribeAudio], up to [await invoke(...)]: either the early [return],
    or the three assignments and the call with [filePath: audioFilePath.value]. *)
Definition transcribeAudio (s : State) : State :=
  if negb (has_file s) || negb (truthy (audioFilePath s)) then
    set_error s msg_no_file
  else
    let s := set_isProcessing s true in
    let s := set_error s "" in
    let s := set_transcription s "" in
    set_inflight s (inflight s ++ [audioFilePath s]).

(** [transcribeAudio], from the answer of [invoke] on: the rest of the [try]
    block or the [catch] block, then the [finally] block. *)
Definition transcribeAudio_resume (o : InvokeOutcome) (s : State) : State :=
  let s :=
    match o with
    | InvokeResult result =>
        if Result.success result then
          let s := set_transcription s (Result.text result) in
          match Result.error result with
          | Some e =>
              if truthy e then set_console s (console s ++ [[msg_warning; e]])
              else s
          | None => s
          end
        else set_error s (or_else (Result.error result) msg_unknown)
    | InvokeThrew e => set_error s (msg_transcribe_prefix ++ e)
    end in
  set_isProcessing s false.

Definition copyTranscription (s : State) : State :=
  if truthy (transcription s) then
    set_clipboard s (clipboard s ++ [transcription s])
  else s.

(** ** The template: which control exists and is enabled *)

(** [<div v-if="!audioFile" class="drop-zone" @click="openFileDialog">] *)
Definition drop_zone_shown (s : State) : bool := negb (has_file s).

(** [<div v-else class="file-info">], which holds the remove button and the
    transcribe button. *)
Definition file_info_shown (s : State) : bool := has_file s.

(** [<button class="btn-primary" @click="transcribeAudio" :disabled="isProcessing">] *)
Definition transcribe_disabled (s : State) : bool := isProcessing s.

(** [<div v-if="error" class="alert alert-error">] *)
Definition alert_shown (s : State) : bool := truthy (error s).

(** [<div v-if="transcription" class="result-section">], which holds the copy
    button. *)
Definition result_shown (s : State) : bool := truthy (transcription s).

(** ** The event loop

    What can happen next: a click on one of the four controls, or the answer
    of an external call.  A click on a control that is not rendered, or on a
    disabled button, reaches no handler; an answer with no call awaiting it
    does not happen. *)
Inductive Event :=
| ClickDropZone
| ClickRemove
| ClickTranscribe
| ClickCopy
| OpenAnswered (o : OpenOutcome)
| InvokeAnswered (i : nat) (o : InvokeOutcome).   (* the answer to the [i]-th call in flight *)

Definition remove_nth {A} (i : nat) (l : list A) : list A :=
  firstn i l ++ skipn (S i) l.

Definition step (s : State) (ev : Event) : State :=
  match ev with
  | ClickDropZone => if drop_zone_shown s then openFileDialog s else s
  | ClickRemove => if file_info_shown s then removeFile s else s
  | ClickTranscribe =>
      if file_info_shown s && negb (transcribe_disabled s) then transcribeAudio s
      else s
  | ClickCopy => if result_shown s then copyTranscription s else s
  | OpenAnswered o =>
      match dialogs s with
      | 0 => s
      | S n => openFileDialog_resume o (set_dialogs s n)
      end
  | InvokeAnswered i o =>
      match nth_error (inflight s) i with
      | None => s
      | Some _ => transcribeAudio_resume o (set_inflight s (remove_nth i (inflight s)))
      end
  end.

Definition run (s : State) (evs : list Event) : State := fold_left step evs s.

(** ** Reference states and the counting invariant *)

Definition song : string := "/tmp/song.mp3".

(** The state after the user picked [song]; then after [transcribeAudio] ran
    on it once. *)
Definition picked : State :=
  run init [ClickDropZone; OpenAnswered (OpenString song)].

Definition requested : State := transcribeAudio picked.

(** The flag [isProcessing] counts the calls in flight. *)
Definition flag_counts_calls (s : State) : Prop :=
  length (inflight s) = if isProcessing s then 1 else 0.

(** ** [audioFileSize] *)

Definition msg_audio_file : string := "Аудио файл".

(** [`${size}`] for a whole number: its decimal digits. *)
Definition decimal (n : N) : string := NilEmpty.string_of_uint (N.to_uint n).

Section SizeLabel.

(** [toFixed2 size d] stands for the text of [(size / d).toFixed(2)]; the
    properties below hold whatever that text is. *)
Variable toFixed2 : N -> N -> string.

(** [computed(() => { if (!audioFile.value) return ""; ... })] *)
Definition audioFileSize (s : State) : string :=
  match audioFile s with
  | None => ""
  | Some f =>
      let size := N.of_nat (File.size f) in
      if (size =? 0)%N then msg_audio_file
      else if (size <? 1024)%N then decimal size ++ " B"
      else if (size <? 1024 * 1024)%N then toFixed2 size 1024 ++ " KB"
      else toFixed2 size (1024 * 1024) ++ " MB"
  end.

End SizeLabel.

(** [toFixed(2)] of the quotient of two whole numbers: the closest number of
    hundredths, the larger one on a tie, printed with its two decimals.  This
    is what JavaScript prints when the quotient is computed exactly, as it is
    for a size below 2^53 divided by a power of two. *)
Definition two_decimals (size d : N) : string :=
  let n := ((200 * size + d) / (2 * d))%N in
  let cents := (n mod 100)%N in
  decimal (n / 100) ++ "." ++ (if (cents <? 10)%N then "0" else "") ++ decimal cents.

(** ** Vocabulary of the further properties *)

(** [audioFile] and [audioFilePath] describe the same file: both are unset,
    or the path is a non-empty string and the file object is the one
    [openFileDialog] builds from it. *)
Definition selection_consistent (s : State) : Prop :=
  match audioFile s with
  | None => audioFilePath s = ""
  | Some f =>
      audioFilePath s <> "" /\
      f = File.mk (or_else (pop (split (audioFilePath s))) default_name) 0
  end.

(** The texts that the answers with [success: true] carry, and the non-empty
    [error] fields that come with them. *)
Definition answered_text (ev : Event) : list string :=
  match ev with
  | InvokeAnswered _ (InvokeResult r) =>
      if Result.success r then [Result.text r] else []
  | _ => []
  end.

Definition answered_warning (ev : Event) : list string :=
  match ev with
  | InvokeAnswered _ (InvokeResult r) =>
      if Result.success r then
        match Result.error r with
        | Some d => if truthy d then [d] else []
        | None => []
        end
      else []
  | _ => []
  end.

Definition success_texts (evs : list Event) : list string :=
  flat_map answered_text evs.

Definition success_warnings (evs : list Event) : list string :=
  flat_map answered_warning evs.

(** The text on display and every text given to the clipboard are non-empty
    texts among [texts]. *)
Definition texts_come_from (texts : list string) (s : State) : Prop :=
  (transcription s = "" \/ In (transcription s) texts) /\
  Forall (fun t => t <> "" /\ In t texts) (clipboard s).

(** Every console line is the warning label followed by a non-empty text
    among [warnings]. *)
Definition warnings_come_from (warnings : list string) (s : State) : Prop :=
  Forall (fun line => exists d, line = [msg_warning; d] /\ d <> "" /\ In d warnings)
         (console s).

(** ** Worked examples *)

Example split_song : split song = [""; "tmp"; "song.mp3"].
Proof. reflexivity. Qed.

Example split_windows : pop (split "C:\Users\me\a.wav") = Some "a.wav".
Proof. reflexivity. Qed.

Example scenario_song :
  let s := run init [ClickDropZone; OpenAnswered (OpenString song); ClickTranscribe;
                     InvokeAnswered 0 (InvokeResult (Result.mk "test" true None))] in
  transcription s = "test" /\ transcribe_disabled s = false /\
  audioFileName s = "song.mp3" /\ inflight s = [] /\ error s = "".
Proof. repeat split. Qed.

Example size_label_examples :
  audioFileSize two_decimals (set_audioFile init (Some (File.mk "a.wav" 0)))
    = "Аудио файл" /\
  audioFileSize two_decimals (set_audioFile init (Some (File.mk "a.wav" 512)))
    = "512 B" /\
  audioFileSize two_decimals (set_audioFile init (Some (File.mk "a.wav" 1536)))
    = "1.50 KB" /\
  two_decimals 1048575 1024 = "1024.00" /\
  two_decimals 5 1024 = "0.00".
Proof. vm_compute. repeat split. Qed.

(** ** Strings *)

Lemma truthy_true (s : string) : truthy s = true <-> s <> "".
Proof.
  unfold truthy. rewrite negb_true_iff. apply String.eqb_neq.
Qed.

Lemma truthy_false (s : string) : truthy s = false <-> s = "".
Proof.
  unfold truthy. rewrite negb_false_iff. apply String.eqb_eq.
Qed.

Lemma or_else_truthy (a : option string) (b : string) :
  truthy b = true -> truthy (or_else a b) = true.
Proof.
  intros Hb. destruct a as [x|]; simpl; [|exact Hb].
  destruct (truthy x) eqn:Hx; [exact Hx | exact Hb].
Qed.

(** ** The last piece of a split *)

Lemma split_not_nil (s : string) : split s <> [].
Proof.
  destruct s as [|c r]; simpl; [discriminate|].
  destruct (is_sep c); [discriminate|].
  destruct (split r); discriminate.
Qed.

Lemma split_no_sep (s : string) : has_sep s = false -> split s = [s].
Proof.
  induction s as [|c r IH]; simpl; intros H; [reflexivity|].
  apply orb_false_iff in H. destruct H as [Hc Hr].
  rewrite Hc, (IH Hr). reflexivity.
Qed.

Lemma split_one_piece (s x : string) : split s = [x] -> has_sep s = false.
Proof.
  revert x. induction s as [|c r IH]; simpl; intros x H; [reflexivity|].
  destruct (is_sep c); simpl.
  - injection H as _ H. now apply split_not_nil in H.
  - destruct (split r) as [|seg segs] eqn:E; [now apply split_not_nil in E|].
    injection H as _ H. subst segs. now apply (IH seg).
Qed.

Lemma pop_cons (x : string) (l : list string) : l <> [] -> pop (x :: l) = pop l.
Proof.
  destruct l; [congruence | reflexivity].
Qed.

Lemma ends_with_sep_cons (c : ascii) (d : string) :
  ends_with_sep d -> ends_with_sep (String c d).
Proof.
  intros (d' & c' & -> & Hc'). now exists (String c d'), c'.
Qed.

(** The array that [split] returns ends with the part of the string after its
    last separator (the whole string when it has none). *)
Lemma pop_split (s : string) :
  exists dir seg,
    pop (split s) = Some seg /\ s = (dir ++ seg)%string /\ has_sep seg = false /\
    (dir = "" \/ ends_with_sep dir).
Proof.
  induction s as [|c r IH].
  - exists "", "". repeat split. now left.
  - destruct IH as (dir & seg & Hpop & Hr & Hseg & Hdir). simpl.
    destruct (is_sep c) eqn:Hc.
    + exists (String c dir), seg.
      rewrite (pop_cons _ _ (split_not_nil r)), Hpop, Hr.
      repeat split; trivial. right.
      destruct Hdir as [->|Hdir]; [now exists "", c | now apply ends_with_sep_cons].
    + destruct (split r) as [|seg0 [|seg1 segs]] eqn:E.
      * now apply split_not_nil in E.
      * pose proof (split_one_piece _ _ E) as Hno.
        rewrite (split_no_sep _ Hno) in E. injection E as <-.
        exists "", (String c r). simpl. rewrite Hc, Hno. repeat split. now left.
      * exists (String c dir), seg. simpl in Hpop |- *. rewrite Hpop, Hr.
        repeat split; trivial. right.
        destruct Hdir as [->|Hdir]; [|now apply ends_with_sep_cons].
        simpl in Hr. subst r. rewrite (split_no_sep _ Hseg) in E. discriminate.
Qed.

(** ** What each handler leaves alone *)

Ltac by_cases_on_outcome o :=
  let text := fresh "text" in
  let ok := fresh "ok" in
  let diag := fresh "diag" in
  let d := fresh "d" in
  let e := fresh "e" in
  destruct o as [[text ok diag]|e]; simpl;
  [ destruct ok; simpl;
    [ destruct diag as [d|]; simpl; [destruct (truthy d)|]; reflexivity
    | reflexivity ]
  | reflexivity ].

Lemma resume_isProcessing (o : InvokeOutcome) (s : State) :
  isProcessing (transcribeAudio_resume o s) = false.
Proof. unfold transcribeAudio_resume. by_cases_on_outcome o. Qed.

Lemma resume_inflight (o : InvokeOutcome) (s : State) :
  inflight (transcribeAudio_resume o s) = inflight s.
Proof. unfold transcribeAudio_resume. by_cases_on_outcome o. Qed.

Lemma resume_audioFile (o : InvokeOutcome) (s : State) :
  audioFile (transcribeAudio_resume o s) = audioFile s.
Proof. unfold transcribeAudio_resume. by_cases_on_outcome o. Qed.

Lemma resume_audioFilePath (o : InvokeOutcome) (s : State) :
  audioFilePath (transcribeAudio_resume o s) = audioFilePath s.
Proof. unfold transcribeAudio_resume. by_cases_on_outcome o. Qed.

Lemma open_resume_isProcessing (o : OpenOutcome) (s : State) :
  isProcessing (openFileDialog_resume o s) = isProcessing s.
Proof.
  destruct o as [sel| |sel|e]; simpl; try reflexivity.
  destruct (truthy sel); reflexivity.
Qed.

Lemma open_resume_inflight (o : OpenOutcome) (s : State) :
  inflight (openFileDialog_resume o s) = inflight s.
Proof.
  destruct o as [sel| |sel|e]; simpl; try reflexivity.
  destruct (truthy sel); reflexivity.
Qed.

Create Rewrite HintDb refs.
#[local] Hint Rewrite resume_isProcessing resume_inflight resume_audioFile
  resume_audioFilePath open_resume_isProcessing open_resume_inflight : refs.

Lemma transcribeAudio_started (s : State) :
  has_file s = true -> audioFilePath s <> "" ->
  isProcessing (transcribeAudio s) = true /\
  inflight (transcribeAudio s) = inflight s ++ [audioFilePath s] /\
  transcription (transcribeAudio s) = "" /\
  error (transcribeAudio s) = "" /\
  audioFile (transcribeAudio s) = audioFile s /\
  audioFilePath (transcribeAudio s) = audioFilePath s.
Proof.
  intros Hf Hp. apply truthy_true in Hp.
  unfold transcribeAudio. rewrite Hf, Hp. simpl. repeat split.
Qed.

Lemma transcribeAudio_refused (s : State) :
  has_file s = false \/ audioFilePath s = "" ->
  transcribeAudio s = set_error s msg_no_file.
Proof.
  intros H. unfold transcribeAudio.
  destruct H as [H|H]; [rewrite H; reflexivity|].
  apply truthy_false in H. rewrite H. now rewrite orb_true_r.
Qed.

(** ** One call in flight *)


Lemma step_flag_counts_calls (s : State) (ev : Event) :
  flag_counts_calls s -> flag_counts_calls (step s ev).
Proof.
  unfold flag_counts_calls. intros H. destruct ev as [ | | | |o|i o]; simpl.
  - destruct (drop_zone_shown s); exact H.
  - destruct (file_info_shown s); exact H.
  - unfold file_info_shown, transcribe_disabled.
    destruct (has_file s) eqn:Hf; simpl; [|exact H].
    destruct (isProcessing s) eqn:Hp; simpl; [rewrite Hp; exact H|].
    unfold transcribeAudio. rewrite Hf. simpl.
    destruct (truthy (audioFilePath s)); simpl; [|rewrite Hp; exact H].
    rewrite length_app, H. reflexivity.
  - destruct (result_shown s); [|exact H]. unfold copyTranscription.
    destruct (truthy (transcription s)); exact H.
  - destruct (dialogs s); [exact H|].
    autorewrite with refs. exact H.
  - destruct (nth_error (inflight s) i) eqn:Hi; [|exact H].
    autorewrite with refs. simpl.
    destruct (inflight s) as [|p [|q l]]; simpl in *.
    + now destruct i.
    + destruct i as [|i]; [reflexivity | now destruct i].
    + destruct (isProcessing s); discriminate.
Qed.

Lemma run_flag_counts_calls (evs : list Event) (s : State) :
  flag_counts_calls s -> flag_counts_calls (run s evs).
Proof.
  revert s. induction evs as [|ev evs IH]; intros s H; simpl; [exact H|].
  apply IH, step_flag_counts_calls, H.
Qed.

Lemma run_app (s : State) (evs evs' : list Event) :
  run s (evs ++ evs') = run (run s evs) evs'.
Proof. apply fold_left_app. Qed.

(** ** Properties of the specification *)

(** C1, as the claim states it, fails: [transcribeAudio] does not look at
    [isProcessing].  Called in [requested], where the flag is set and one call
    is in flight, it issues a second call; and the answer to the first of the
    two clears the flag while the second is still in flight. *)
Lemma transcribeAudio_while_in_flight :
  isProcessing requested = true /\
  inflight requested = [song] /\
  inflight (transcribeAudio requested) = [song; song] /\
  isProcessing (step (transcribeAudio requested)
                     (InvokeAnswered 0 (InvokeThrew "x"))) = false /\
  inflight (step (transcribeAudio requested)
                 (InvokeAnswered 0 (InvokeThrew "x"))) = [song].
Proof. repeat split. Qed.

(** C1 (amended): whatever the user clicks and whenever the external calls are
    answered, at most one [transcribe_audio] call is in flight, and one is in
    flight exactly when [isProcessing] is set; the guard is the template's
    [:disabled="isProcessing"], so a click on the transcribe button while the
    flag is set changes nothing. *)
Theorem one_call_in_flight (evs : list Event) :
  length (inflight (run init evs)) <= 1 /\
  length (inflight (run init evs)) = (if isProcessing (run init evs) then 1 else 0) /\
  (isProcessing (run init evs) = true ->
   run init (evs ++ [ClickTranscribe]) = run init evs).
Proof.
  assert (H : flag_counts_calls (run init evs))
    by (apply run_flag_counts_calls; reflexivity).
  unfold flag_counts_calls in H. split; [|split].
  - rewrite H. destruct (isProcessing (run init evs)); lia.
  - exact H.
  - intros Hp. rewrite run_app. simpl.
    unfold transcribe_disabled. rewrite Hp, andb_false_r. reflexivity.
Qed.

Lemma one_call_in_flight_second_click :
  run init ([ClickDropZone; OpenAnswered (OpenString song); ClickTranscribe]
              ++ [ClickTranscribe])
  = run init [ClickDropZone; OpenAnswered (OpenString song); ClickTranscribe].
Proof.
  exact (proj2 (proj2 (one_call_in_flight
           [ClickDropZone; OpenAnswered (OpenString song); ClickTranscribe]))
         eq_refl).
Defined.

(** C2: when [audioFile] is [null] or [audioFilePath] is empty,
    [transcribeAudio] only assigns the validation message to [error]: it
    issues no call, leaves [isProcessing] (hence a [false] flag stays
    [false]), [transcription] and the selection as they are, and the message
    is on display when it returns. *)
Theorem transcribeAudio_without_selection (s : State) :
  audioFile s = None \/ audioFilePath s = "" ->
  transcribeAudio s = set_error s msg_no_file /\
  inflight (transcribeAudio s) = inflight s /\
  isProcessing (transcribeAudio s) = isProcessing s /\
  transcription (transcribeAudio s) = transcription s /\
  audioFile (transcribeAudio s) = audioFile s /\
  audioFilePath (transcribeAudio s) = audioFilePath s /\
  error (transcribeAudio s) = msg_no_file /\
  alert_shown (transcribeAudio s) = true.
Proof.
  intros H. rewrite transcribeAudio_refused.
  - repeat split.
  - destruct H as [H|H]; [left | now right].
    unfold has_file. now rewrite H.
Qed.

Lemma transcribeAudio_without_selection_init :
  transcribeAudio init = set_error init msg_no_file /\
  inflight (transcribeAudio init) = inflight init /\
  isProcessing (transcribeAudio init) = isProcessing init /\
  transcription (transcribeAudio init) = transcription init /\
  audioFile (transcribeAudio init) = audioFile init /\
  audioFilePath (transcribeAudio init) = audioFilePath init /\
  error (transcribeAudio init) = msg_no_file /\
  alert_shown (transcribeAudio init) = true.
Proof.
  apply (transcribeAudio_without_selection init). left. reflexivity.
Defined.

(** C3: on an answer with [success: true], [transcription] becomes the answer's
    [text], the very string, and [isProcessing] becomes [false]; [error] and
    the selection stay as they are.  The answer's [error] field reaches the
    console only (one [console.warn] when it is a non-empty string): but for
    the console the state is the one an answer without that field gives.
    After a trigger that this answer follows directly, [error] is empty. *)
Theorem success_stores_text (s : State) (text : string) (diag : option string) :
  let s' := transcribeAudio_resume (InvokeResult (Result.mk text true diag)) s in
  transcription s' = text /\
  isProcessing s' = false /\
  error s' = error s /\
  audioFile s' = audioFile s /\
  audioFilePath s' = audioFilePath s /\
  console s' = console s ++
    match diag with
    | Some d => if d =? "" then [] else [[msg_warning; d]]
    | None => []
    end /\
  set_console s' (console s) =
    transcribeAudio_resume (InvokeResult (Result.mk text true None)) s /\
  error (transcribeAudio_resume (InvokeResult (Result.mk text true diag))
           (transcribeAudio s)) =
    (if has_file s && truthy (audioFilePath s) then "" else msg_no_file).
Proof.
  unfold transcribeAudio_resume, transcribeAudio, truthy. simpl.
  destruct diag as [d|]; [destruct (d =? "")|]; simpl;
    rewrite ?app_nil_r; repeat split;
    destruct (has_file s), (audioFilePath s =? ""); reflexivity.
Qed.

(** C4: on an answer with [success: false], [error] becomes the answer's
    [error] field when that is a non-empty string, and the fallback message
    when the field is missing or empty; [isProcessing] becomes
    [false] and [transcription] stays as it is. *)
Theorem failure_stores_message (s : State) (text : string) (diag : option string) :
  let s' := transcribeAudio_resume (InvokeResult (Result.mk text false diag)) s in
  error s' =
    match diag with
    | Some d => if d =? "" then msg_unknown else d
    | None => msg_unknown
    end /\
  isProcessing s' = false /\
  transcription s' = transcription s /\
  alert_shown s' = true.
Proof.
  unfold transcribeAudio_resume, alert_shown. simpl. repeat split.
  - destruct diag as [d|]; [|reflexivity]. simpl. unfold truthy.
    destruct (d =? ""); reflexivity.
  - simpl. now apply or_else_truthy.
Qed.

(** C5: when the call throws [e], [error] becomes the prefix
    ["Ошибка при расшифровке: "] followed by the text of [e], which is not the
    empty string; [isProcessing] becomes [false] and [transcription] stays as
    it is. *)
Theorem throw_stores_description (s : State) (e : string) :
  let s' := transcribeAudio_resume (InvokeThrew e) s in
  error s' = (msg_transcribe_prefix ++ e)%string /\
  error s' <> "" /\
  alert_shown s' = true /\
  isProcessing s' = false /\
  transcription s' = transcription s.
Proof.
  unfold transcribeAudio_resume. simpl. repeat split. discriminate.
Qed.

(** C6: whatever the answer (a result with [success] true or false, or a
    throw), [isProcessing] is [false] afterwards and the transcribe button is
    enabled.  For an attempt started on a selected file: the answer leaves the
    selection in place, the button is rendered and a click on it reaches
    [transcribeAudio], which issues a new call for the same path. *)
Theorem attempt_ends_retriable (s : State) (o : InvokeOutcome) :
  has_file s = true -> audioFilePath s <> "" ->
  let done := transcribeAudio_resume o (transcribeAudio s) in
  (forall s0, isProcessing (transcribeAudio_resume o s0) = false) /\
  isProcessing done = false /\
  transcribe_disabled done = false /\
  file_info_shown done = true /\
  step done ClickTranscribe = transcribeAudio done /\
  isProcessing (transcribeAudio done) = true /\
  inflight (transcribeAudio done) = inflight done ++ [audioFilePath s].
Proof.
  intros Hf Hp done.
  destruct (transcribeAudio_started s Hf Hp) as (_ & _ & _ & _ & Hfile & Hpath).
  assert (Hf' : has_file done = true).
  { unfold has_file, done. autorewrite with refs. rewrite Hfile. exact Hf. }
  assert (Hp' : audioFilePath done = audioFilePath s).
  { unfold done. now autorewrite with refs. }
  assert (Hproc : isProcessing done = false) by apply resume_isProcessing.
  destruct (transcribeAudio_started done Hf') as (Hgo & Hcall & _).
  { now rewrite Hp'. }
  split; [intros s0; apply resume_isProcessing|].
  split; [exact Hproc|]. split; [exact Hproc|]. split; [exact Hf'|].
  split; [|split].
  - unfold step, file_info_shown, transcribe_disabled. now rewrite Hf', Hproc.
  - exact Hgo.
  - now rewrite Hcall, Hp'.
Qed.

Lemma attempt_ends_retriable_song :
  let done := transcribeAudio_resume (InvokeThrew "spawn failed") (transcribeAudio picked) in
  (forall s0, isProcessing (transcribeAudio_resume (InvokeThrew "spawn failed") s0) = false) /\
  isProcessing done = false /\
  transcribe_disabled done = false /\
  file_info_shown done = true /\
  step done ClickTranscribe = transcribeAudio done /\
  isProcessing (transcribeAudio done) = true /\
  inflight (transcribeAudio done) = inflight done ++ [audioFilePath picked].
Proof.
  apply (attempt_ends_retriable picked (InvokeThrew "spawn failed")).
  - reflexivity.
  - discriminate.
Defined.

(** C7: when the dialog answers with a non-empty string [selected], then from
    every state [audioFilePath] becomes [selected], [audioFile] becomes a
    fresh object whose [name] is the part of [selected] after its last [/] or
    [\] (["audio.mp3"] when that part is empty), and [transcription] and
    [error] become empty; [isProcessing] and the calls in flight stay. *)
Theorem pick_replaces_selection (s : State) (selected : string) :
  selected <> "" ->
  let s' := openFileDialog_resume (OpenString selected) s in
  audioFilePath s' = selected /\
  transcription s' = "" /\
  error s' = "" /\
  isProcessing s' = isProcessing s /\
  inflight s' = inflight s /\
  exists dir seg,
    selected = (dir ++ seg)%string /\ has_sep seg = false /\
    (dir = "" \/ ends_with_sep dir) /\
    audioFile s' = Some (File.mk (if seg =? "" then default_name else seg) 0) /\
    audioFileName s' = (if seg =? "" then default_name else seg).
Proof.
  intros Hsel s'. apply truthy_true in Hsel.
  unfold s', openFileDialog_resume. rewrite Hsel. simpl.
  repeat split.
  destruct (pop_split selected) as (dir & seg & Hpop & Heq & Hseg & Hdir).
  exists dir, seg. rewrite Hpop. unfold audioFileName. simpl. unfold truthy.
  repeat split; trivial;
    destruct (seg =? "") eqn:E; simpl; rewrite ?E; reflexivity.
Qed.

Lemma pick_replaces_selection_song :
  let s' := openFileDialog_resume (OpenString song) requested in
  audioFilePath s' = song /\
  transcription s' = "" /\
  error s' = "" /\
  isProcessing s' = isProcessing requested /\
  inflight s' = inflight requested /\
  exists dir seg,
    song = (dir ++ seg)%string /\ has_sep seg = false /\
    (dir = "" \/ ends_with_sep dir) /\
    audioFile s' = Some (File.mk (if seg =? "" then default_name else seg) 0) /\
    audioFileName s' = (if seg =? "" then default_name else seg).
Proof.
  apply (pick_replaces_selection requested song). discriminate.
Defined.

(** C8: when the user dismisses the dialog ([open] answers [null]) the rest of
    [openFileDialog] assigns nothing: the state after the pick action is the
    state before it, selection, [transcription] and [error] included. *)
Theorem cancel_changes_nothing (s : State) :
  openFileDialog_resume OpenNull s = s /\
  step (openFileDialog s) (OpenAnswered OpenNull) = s /\
  audioFile (openFileDialog_resume OpenNull (openFileDialog s)) = audioFile s /\
  audioFilePath (openFileDialog_resume OpenNull (openFileDialog s)) = audioFilePath s /\
  transcription (openFileDialog_resume OpenNull (openFileDialog s)) = transcription s /\
  error (openFileDialog_resume OpenNull (openFileDialog s)) = error s /\
  isProcessing (openFileDialog_resume OpenNull (openFileDialog s)) = isProcessing s.
Proof.
  destruct s. repeat split.
Qed.

(** C9: from every state [removeFile] makes [audioFile] [null] and
    [audioFilePath], [transcription] and [error] empty, leaves everything else
    as it is, and a second [removeFile] changes nothing more. *)
Theorem removeFile_clears (s : State) :
  audioFile (removeFile s) = None /\
  audioFilePath (removeFile s) = "" /\
  transcription (removeFile s) = "" /\
  error (removeFile s) = "" /\
  isProcessing (removeFile s) = isProcessing s /\
  inflight (removeFile s) = inflight s /\
  removeFile (removeFile s) = removeFile s.
Proof.
  repeat split.
Qed.

(** C10: on an answer with [success: false] whose [error] field is the empty
    string, [error] becomes the fallback message, as it does when the field is
    missing; whatever the field, [error] is not empty after such an answer. *)
Theorem empty_diagnostic_falls_back (s : State) (text : string) (diag : option string) :
  error (transcribeAudio_resume (InvokeResult (Result.mk text false (Some ""))) s)
    = msg_unknown /\
  transcribeAudio_resume (InvokeResult (Result.mk text false (Some ""))) s
    = transcribeAudio_resume (InvokeResult (Result.mk text false None)) s /\
  msg_unknown <> "" /\
  error (transcribeAudio_resume (InvokeResult (Result.mk text false diag)) s) <> "".
Proof.
  repeat split; try discriminate.
  unfold transcribeAudio_resume. simpl.
  apply truthy_true, or_else_truthy. reflexivity.
Qed.

(** ** Further properties: the selection *)

Lemma run_keeps (P : State -> Prop) :
  (forall s ev, P s -> P (step s ev)) ->
  forall evs s, P s -> P (run s evs).
Proof.
  intros Hstep evs. induction evs as [|ev evs IH]; intros s Hs; simpl; [exact Hs|].
  apply IH, Hstep, Hs.
Qed.

Lemma transcribeAudio_selection (s : State) :
  audioFile (transcribeAudio s) = audioFile s /\
  audioFilePath (transcribeAudio s) = audioFilePath s.
Proof.
  unfold transcribeAudio.
  destruct (negb (has_file s) || negb (truthy (audioFilePath s))); split; reflexivity.
Qed.

Lemma copyTranscription_selection (s : State) :
  audioFile (copyTranscription s) = audioFile s /\
  audioFilePath (copyTranscription s) = audioFilePath s.
Proof.
  unfold copyTranscription. destruct (truthy (transcription s)); split; reflexivity.
Qed.

Lemma selection_consistent_ext (s s' : State) :
  audioFile s' = audioFile s -> audioFilePath s' = audioFilePath s ->
  selection_consistent s -> selection_consistent s'.
Proof.
  unfold selection_consistent. intros -> ->. trivial.
Qed.

Lemma open_resume_selection_consistent (o : OpenOutcome) (s : State) :
  selection_consistent s -> selection_consistent (openFileDialog_resume o s).
Proof.
  intros H. destruct o as [sel| |sel|e]; simpl; trivial.
  destruct (truthy sel) eqn:Hsel; [|exact H].
  unfold selection_consistent. simpl. split; [now apply truthy_true | reflexivity].
Qed.

Lemma step_selection_consistent (s : State) (ev : Event) :
  selection_consistent s -> selection_consistent (step s ev).
Proof.
  intros H. destruct ev as [ | | | |o|i o]; simpl.
  - destruct (drop_zone_shown s); exact H.
  - destruct (file_info_shown s); [reflexivity | exact H].
  - destruct (file_info_shown s && negb (transcribe_disabled s)); [|exact H].
    destruct (transcribeAudio_selection s) as [Hf Hp].
    exact (selection_consistent_ext _ _ Hf Hp H).
  - destruct (result_shown s); [|exact H].
    destruct (copyTranscription_selection s) as [Hf Hp].
    exact (selection_consistent_ext _ _ Hf Hp H).
  - destruct (dialogs s); [exact H|].
    apply open_resume_selection_consistent. exact H.
  - destruct (nth_error (inflight s) i); [|exact H].
    refine (selection_consistent_ext s _ _ _ H); now autorewrite with refs.
Qed.

Lemma run_selection_consistent (evs : list Event) :
  selection_consistent (run init evs).
Proof.
  apply (run_keeps selection_consistent step_selection_consistent). reflexivity.
Qed.

Lemma has_sep_default_name : has_sep default_name = false.
Proof. reflexivity. Qed.

(** The name [openFileDialog] gives to a path: never empty, never with a
    separator in it. *)
Lemma picked_name_plain (selected : string) :
  truthy (or_else (pop (split selected)) default_name) = true /\
  has_sep (or_else (pop (split selected)) default_name) = false.
Proof.
  split; [now apply or_else_truthy|].
  destruct (pop_split selected) as (dir & seg & -> & _ & Hseg & _). simpl.
  destruct (truthy seg); [exact Hseg | exact has_sep_default_name].
Qed.

(** X1: after every sequence of clicks and answers, [audioFile] and
    [audioFilePath] agree: either both are unset, or the path is not empty and
    the file object has size 0 and carries as its name the part of that very
    path after its last separator (["audio.mp3"] when that part is empty). *)
Theorem selection_matches_path (evs : list Event) :
  has_file (run init evs) = truthy (audioFilePath (run init evs)) /\
  match audioFile (run init evs) with
  | None => audioFilePath (run init evs) = ""
  | Some f =>
      audioFilePath (run init evs) <> "" /\
      File.size f = 0 /\
      exists dir seg,
        audioFilePath (run init evs) = (dir ++ seg)%string /\
        has_sep seg = false /\
        (dir = "" \/ ends_with_sep dir) /\
        File.name f = (if seg =? "" then default_name else seg)
  end.
Proof.
  pose proof (run_selection_consistent evs) as H.
  unfold selection_consistent, has_file in *.
  destruct (audioFile (run init evs)) as [f|].
  - destruct H as [Hp ->]. split; [symmetry; now apply truthy_true|].
    split; [exact Hp|]. split; [reflexivity|].
    destruct (pop_split (audioFilePath (run init evs)))
      as (dir & seg & Hpop & Heq & Hseg & Hdir).
    exists dir, seg. rewrite Hpop. simpl. unfold truthy.
    repeat split; trivial. destruct (seg =? ""); reflexivity.
  - split; [|exact H]. symmetry. now apply truthy_false.
Qed.

(** X2: the size label never shows a size.  After every sequence of clicks
    and answers it is ["Аудио файл"] when a file is selected and empty when
    none is, whatever [toFixed] prints: the only file object the component
    builds has [size: 0]. *)
Theorem size_label_is_constant (toFixed2 : N -> N -> string) (evs : list Event) :
  audioFileSize toFixed2 (run init evs) =
    (if has_file (run init evs) then msg_audio_file else "").
Proof.
  pose proof (run_selection_consistent evs) as H.
  unfold selection_consistent, audioFileSize, has_file in *.
  destruct (audioFile (run init evs)) as [f|]; [|reflexivity].
  destruct H as [_ ->]. reflexivity.
Qed.

(** X3: after every sequence of clicks and answers the displayed file name
    holds no [/] and no [\], and it is empty exactly when no file is
    selected. *)
Theorem shown_name_is_plain (evs : list Event) :
  has_sep (audioFileName (run init evs)) = false /\
  truthy (audioFileName (run init evs)) = has_file (run init evs).
Proof.
  pose proof (run_selection_consistent evs) as H.
  unfold selection_consistent, audioFileName, has_file in *.
  destruct (audioFile (run init evs)) as [f|]; [|split; reflexivity].
  destruct H as [_ ->].
  destruct (picked_name_plain (audioFilePath (run init evs))) as [Ht Hs].
  simpl. rewrite Ht. split; [exact Hs | exact Ht].
Qed.

(** X4: after every sequence of clicks and answers, a click on the transcribe
    button either reaches no handler (no file is selected, or a call is in
    flight) or starts exactly one call, for the stored path, with the flag set
    and [error] and [transcription] emptied: through the rendered controls
    [transcribeAudio] never takes its ["Файл не выбран"] branch. *)
Theorem click_starts_or_is_ignored (evs : list Event) :
  (step (run init evs) ClickTranscribe = run init evs /\
   (has_file (run init evs) = false \/ isProcessing (run init evs) = true))
  \/
  (has_file (run init evs) = true /\ isProcessing (run init evs) = false /\
   inflight (step (run init evs) ClickTranscribe) = [audioFilePath (run init evs)] /\
   isProcessing (step (run init evs) ClickTranscribe) = true /\
   error (step (run init evs) ClickTranscribe) = "" /\
   transcription (step (run init evs) ClickTranscribe) = "").
Proof.
  pose proof (run_selection_consistent evs) as Hsel.
  assert (Hcount : flag_counts_calls (run init evs))
    by (apply run_flag_counts_calls; reflexivity).
  unfold flag_counts_calls in Hcount.
  unfold step, file_info_shown, transcribe_disabled.
  destruct (has_file (run init evs)) eqn:Hf; [|left; split; [reflexivity | now left]].
  destruct (isProcessing (run init evs)) eqn:Hp; [left; split; [reflexivity | now right]|].
  right. simpl.
  assert (Hpath : audioFilePath (run init evs) <> "").
  { unfold selection_consistent, has_file in *.
    destruct (audioFile (run init evs)); [apply Hsel | discriminate]. }
  destruct (transcribeAudio_started _ Hf Hpath) as (Hgo & Hcall & Htr & Herr & _).
  destruct (inflight (run init evs)); [|discriminate].
  repeat split; assumption.
Qed.

(** ** Further properties: attempts and late answers *)



(** X6: an answer is stored whatever has become of the selection.  The user
    picks [p] and starts the transcription, removes the file, picks [q], and
    only then the call for [p] answers with a text: the text is put on display
    under the selection [q], and no call is in flight for [q]. *)
Theorem late_answer_is_shown (p q text : string) (diag : option string) :
  p <> "" -> q <> "" ->
  let asked :=
    run init [ClickDropZone; OpenAnswered (OpenString p); ClickTranscribe] in
  let late :=
    run asked [ClickRemove; ClickDropZone; OpenAnswered (OpenString q);
               InvokeAnswered 0 (InvokeResult (Result.mk text true diag))] in
  inflight asked = [p] /\
  audioFilePath late = q /\
  has_file late = true /\
  transcription late = text /\
  error late = "" /\
  isProcessing late = false /\
  inflight late = [].
Proof.
  intros Hp Hq. apply truthy_true in Hp, Hq.
  unfold run. simpl. rewrite Hp.
  repeat (unfold transcribeAudio, file_info_shown, transcribe_disabled,
            drop_zone_shown, has_file, removeFile, openFileDialog,
            transcribeAudio_resume;
          simpl; rewrite ?Hp, ?Hq; simpl).
  destruct diag as [d|]; [destruct (truthy d)|]; repeat split.
Qed.

Lemma late_answer_is_shown_song :
  let asked :=
    run init [ClickDropZone; OpenAnswered (OpenString song); ClickTranscribe] in
  let late :=
    run asked [ClickRemove; ClickDropZone; OpenAnswered (OpenString "/tmp/talk.wav");
               InvokeAnswered 0 (InvokeResult (Result.mk "la la" true None))] in
  inflight asked = [song] /\
  audioFilePath late = "/tmp/talk.wav" /\
  has_file late = true /\
  transcription late = "la la" /\
  error late = "" /\
  isProcessing late = false /\
  inflight late = [].
Proof.
  apply (late_answer_is_shown song "/tmp/talk.wav" "la la" None); discriminate.
Defined.

(** X7: an answer of the file dialog that is not a non-empty string selects
    nothing.  [null], an array and the empty string leave the state as it is;
    a rejection only puts a non-empty message in [error].  In every case the
    selection, [transcription], the flag and the calls in flight stay. *)
Theorem open_without_path (o : OpenOutcome) (s : State) :
  (forall selected, o = OpenString selected -> selected = "") ->
  audioFile (openFileDialog_resume o s) = audioFile s /\
  audioFilePath (openFileDialog_resume o s) = audioFilePath s /\
  transcription (openFileDialog_resume o s) = transcription s /\
  isProcessing (openFileDialog_resume o s) = isProcessing s /\
  inflight (openFileDialog_resume o s) = inflight s /\
  match o with
  | OpenThrew e =>
      error (openFileDialog_resume o s) = (msg_pick_prefix ++ e)%string /\
      alert_shown (openFileDialog_resume o s) = true
  | _ => openFileDialog_resume o s = s
  end.
Proof.
  intros H. destruct o as [sel| |sel|e]; simpl; try (repeat split; fail).
  rewrite (H sel eq_refl). simpl. repeat split.
Qed.

Lemma open_without_path_array :
  audioFile (openFileDialog_resume (OpenArray [song; song]) requested)
    = audioFile requested /\
  audioFilePath (openFileDialog_resume (OpenArray [song; song]) requested)
    = audioFilePath requested /\
  transcription (openFileDialog_resume (OpenArray [song; song]) requested)
    = transcription requested /\
  isProcessing (openFileDialog_resume (OpenArray [song; song]) requested)
    = isProcessing requested /\
  inflight (openFileDialog_resume (OpenArray [song; song]) requested)
    = inflight requested /\
  openFileDialog_resume (OpenArray [song; song]) requested = requested.
Proof.
  apply (open_without_path (OpenArray [song; song]) requested).
  intros selected H. discriminate H.
Defined.

(** ** Further properties: where the displayed texts come from *)

Lemma texts_come_from_more (texts more : list string) (s : State) :
  texts_come_from texts s -> texts_come_from (texts ++ more) s.
Proof.
  intros [Ht Hc]. split.
  - destruct Ht as [Ht|Ht]; [now left | right; apply in_or_app; now left].
  - eapply Forall_impl; [|exact Hc]. intros t [Hne Hin].
    split; [exact Hne | apply in_or_app; now left].
Qed.

Lemma texts_come_from_cleared (texts : list string) (s s' : State) :
  transcription s' = "" -> clipboard s' = clipboard s ->
  texts_come_from texts s -> texts_come_from texts s'.
Proof.
  intros Ht Hc [_ H]. split; [now left | now rewrite Hc].
Qed.

Lemma step_texts_come_from (texts : list string) (s : State) (ev : Event) :
  texts_come_from texts s ->
  texts_come_from (texts ++ answered_text ev) (step s ev).
Proof.
  intros H. pose proof (texts_come_from_more _ (answered_text ev) _ H) as Hm.
  destruct ev as [ | | | |o|i o]; simpl in *.
  - destruct (drop_zone_shown s); exact Hm.
  - destruct (file_info_shown s); [|exact Hm].
    now apply (texts_come_from_cleared _ s).
  - destruct (file_info_shown s && negb (transcribe_disabled s)); [|exact Hm].
    unfold transcribeAudio.
    destruct (negb (has_file s) || negb (truthy (audioFilePath s))); [exact Hm|].
    now apply (texts_come_from_cleared _ s).
  - unfold result_shown, copyTranscription.
    destruct (truthy (transcription s)) eqn:Ht; [|exact Hm].
    destruct Hm as [Hshown Hclip]. split; [exact Hshown|]. simpl.
    apply Forall_app. split; [exact Hclip|].
    apply truthy_true in Ht. constructor; [|constructor].
    split; [exact Ht|]. now destruct Hshown.
  - destruct (dialogs s); [exact Hm|].
    destruct o as [sel| |sel|e]; simpl; try exact Hm.
    destruct (truthy sel); [|exact Hm].
    now apply (texts_come_from_cleared _ s).
  - destruct (nth_error (inflight s) i); [|exact Hm].
    unfold transcribeAudio_resume.
    destruct o as [[text ok diag]|e]; simpl in *; [|exact Hm].
    destruct ok; simpl in *; [|exact Hm].
    assert (Hnew : texts_come_from (texts ++ [text])
                     (set_transcription s text)).
    { split; [right; apply in_or_app; right; now left | apply Hm]. }
    destruct diag as [d|]; [destruct (truthy d)|]; exact Hnew.
Qed.

Lemma run_texts_come_from (evs : list Event) :
  texts_come_from (success_texts evs) (run init evs).
Proof.
  induction evs as [|ev evs IH] using rev_ind.
  - split; [now left | constructor].
  - unfold success_texts. rewrite run_app, flat_map_app. simpl.
    rewrite app_nil_r. apply step_texts_come_from, IH.
Qed.

(** X8: the result on display and the clipboard only ever hold texts that the
    engine returned.  After every sequence of clicks and answers,
    [transcription] is empty or the [text] of one of the answers with
    [success: true] so far, and every text given to the clipboard is a
    non-empty one of those. *)
Theorem shown_texts_are_answers (evs : list Event) :
  (transcription (run init evs) = "" \/
   In (transcription (run init evs)) (success_texts evs)) /\
  Forall (fun t => t <> "" /\ In t (success_texts evs)) (clipboard (run init evs)).
Proof.
  exact (run_texts_come_from evs).
Qed.

Lemma warnings_come_from_more (warnings more : list string) (s : State) :
  warnings_come_from warnings s -> warnings_come_from (warnings ++ more) s.
Proof.
  unfold warnings_come_from. intros H. eapply Forall_impl; [|exact H].
  intros line (d & Hl & Hne & Hin). exists d.
  repeat split; trivial. apply in_or_app. now left.
Qed.

Lemma step_warnings_come_from (warnings : list string) (s : State) (ev : Event) :
  warnings_come_from warnings s ->
  warnings_come_from (warnings ++ answered_warning ev) (step s ev).
Proof.
  intros H. pose proof (warnings_come_from_more _ (answered_warning ev) _ H) as Hm.
  destruct ev as [ | | | |o|i o]; simpl in *.
  - destruct (drop_zone_shown s); exact Hm.
  - destruct (file_info_shown s); exact Hm.
  - destruct (file_info_shown s && negb (transcribe_disabled s)); [|exact Hm].
    unfold transcribeAudio.
    destruct (negb (has_file s) || negb (truthy (audioFilePath s))); exact Hm.
  - unfold copyTranscription.
    destruct (result_shown s); [|exact Hm].
    destruct (truthy (transcription s)); exact Hm.
  - destruct (dialogs s); [exact Hm|].
    destruct o as [sel| |sel|e]; simpl; try exact Hm.
    destruct (truthy sel); exact Hm.
  - destruct (nth_error (inflight s) i); [|exact Hm].
    unfold transcribeAudio_resume.
    destruct o as [[text ok diag]|e]; simpl in *; [|exact Hm].
    destruct ok; simpl in *; [|exact Hm].
    destruct diag as [d|]; [|exact Hm].
    destruct (truthy d) eqn:Hd; [|exact Hm].
    unfold warnings_come_from in *. simpl.
    apply Forall_app. split; [exact Hm|].
    constructor; [|constructor]. exists d.
    repeat split; [now apply truthy_true | apply in_or_app; right; now left].
Qed.

Lemma run_warnings_come_from (evs : list Event) :
  warnings_come_from (success_warnings evs) (run init evs).
Proof.
  induction evs as [|ev evs IH] using rev_ind.
  - constructor.
  - unfold success_warnings. rewrite run_app, flat_map_app. simpl.
    rewrite app_nil_r. apply step_warnings_come_from, IH.
Qed.

(** X9: the component writes to the console for one reason only.  After
    every sequence of clicks and answers, every console line is the label
    ["Предупреждение:"] followed by the non-empty [error] field of one of the
    answers with [success: true] so far; failures and throws are never
    logged. *)
Theorem console_holds_warnings (evs : list Event) :
  Forall (fun line => exists d, line = [msg_warning; d] /\ d <> "" /\
                                In d (success_warnings evs))
         (console (run init evs)).
Proof.
  exact (run_warnings_come_from evs).
Qed.

(** ** Further properties: the displayed name, and calls that cannot be dropped *)

Lemma has_sep_app (a b : string) :
  has_sep (a ++ b) = has_sep a || has_sep b.
Proof.
  induction a as [|c a IH]; simpl; [reflexivity|].
  rewrite IH. apply orb_assoc.
Qed.

Lemma pop_split_after_sep (d : string) (c : ascii) (name : string) :
  is_sep c = true -> has_sep name = false ->
  pop (split (d ++ String c name)) = Some name.
Proof.
  intros Hc Hname. induction d as [|a d IH]; simpl.
  - rewrite Hc, (split_no_sep _ Hname). reflexivity.
  - destruct (is_sep a).
    + now rewrite (pop_cons _ _ (split_not_nil _)).
    + destruct (split (d ++ String c name)) as [|seg [|seg1 segs]] eqn:E.
      * now apply split_not_nil in E.
      * apply split_one_piece in E. rewrite has_sep_app in E. simpl in E.
        rewrite Hc, orb_true_r in E. discriminate.
      * exact IH.
Qed.

Lemma pop_split_append (prefix name : string) :
  prefix = "" \/ ends_with_sep prefix -> has_sep name = false ->
  pop (split (prefix ++ name)) = Some name.
Proof.
  intros [->|(d & c & -> & Hc)] Hname.
  - simpl. now rewrite (split_no_sep _ Hname).
  - replace ((d ++ String c "") ++ name)%string with (d ++ String c name)%string.
    + now apply pop_split_after_sep.
    + clear. induction d as [|a d IH]; simpl; [reflexivity | now rewrite IH].
Qed.

(** X10: when the dialog answers with a path made of a directory part (empty,
    or ending with [/] or [\]) and a last part without separator, the file is
    selected under that last part as its name, and under ["audio.mp3"] when
    the last part is empty; the path itself is stored whole. *)
Theorem pick_names_last_part (s : State) (prefix name : string) :
  prefix = "" \/ ends_with_sep prefix ->
  has_sep name = false ->
  (prefix ++ name)%string <> "" ->
  audioFilePath (openFileDialog_resume (OpenString (prefix ++ name)) s)
    = (prefix ++ name)%string /\
  audioFile (openFileDialog_resume (OpenString (prefix ++ name)) s)
    = Some (File.mk (if name =? "" then default_name else name) 0) /\
  audioFileName (openFileDialog_resume (OpenString (prefix ++ name)) s)
    = (if name =? "" then default_name else name).
Proof.
  intros Hprefix Hname Hpath. apply truthy_true in Hpath.
  unfold openFileDialog_resume, audioFileName. rewrite Hpath. simpl.
  rewrite (pop_split_append _ _ Hprefix Hname). simpl. unfold truthy.
  destruct (name =? "") eqn:E; simpl; rewrite ?E; repeat split.
Qed.

Lemma pick_names_last_part_windows :
  audioFilePath (openFileDialog_resume (OpenString ("C:\Users\me\" ++ "a.wav")) init)
    = ("C:\Users\me\" ++ "a.wav")%string /\
  audioFile (openFileDialog_resume (OpenString ("C:\Users\me\" ++ "a.wav")) init)
    = Some (File.mk (if "a.wav" =? "" then default_name else "a.wav") 0) /\
  audioFileName (openFileDialog_resume (OpenString ("C:\Users\me\" ++ "a.wav")) init)
    = (if "a.wav" =? "" then default_name else "a.wav").
Proof.
  apply (pick_names_last_part init "C:\Users\me\" "a.wav").
  - right. exists "C:\Users\me", "\"%char. split; reflexivity.
  - reflexivity.
  - discriminate.
Defined.

(** X11: nothing but its answer ends a call.  While [isProcessing] is set, a
    click of any kind and an answer of the file dialog leave the flag set and
    the calls in flight as they are: there is no cancellation, and removing
    the file or picking another one does not stop the spinner. *)
Theorem only_an_answer_ends_a_call (s : State) (ev : Event) :
  (forall i o, ev <> InvokeAnswered i o) ->
  isProcessing s = true ->
  isProcessing (step s ev) = true /\ inflight (step s ev) = inflight s.
Proof.
  intros Hev Hp. destruct ev as [ | | | |o|i o]; simpl.
  - destruct (drop_zone_shown s); split; trivial.
  - destruct (file_info_shown s); split; trivial.
  - unfold transcribe_disabled. rewrite Hp, andb_false_r. split; trivial.
  - unfold copyTranscription.
    destruct (result_shown s); [destruct (truthy (transcription s))|]; split; trivial.
  - destruct (dialogs s); [split; trivial|].
    autorewrite with refs. split; trivial.
  - now destruct (Hev i o).
Qed.

Lemma only_an_answer_ends_a_call_remove :
  isProcessing (step requested ClickRemove) = true /\
  inflight (step requested ClickRemove) = inflight requested.
Proof.
  apply (only_an_answer_ends_a_call requested ClickRemove).
  - intros i o H. discriminate H.
  - reflexivity.
Defined.
